(** * ruby-magic: the binding layer of ext/magic/ruby-magic.c

    A shallow embedding of the translation unit [ext/magic/ruby-magic.c].
    The file is glue between the host interpreter and the native
    file-identification library, so the embedding consists of

    - the interpreter values the unit handles ([VALUE]) and the exceptions
      it raises;
    - the wrapped object (its [DATA_PTR] and the instance variables
      [@flags], [@path], [@mutex]);
    - the native library, which is outside the repository: every entry point
      is a field of the record [Lib.t], an arbitrary function of its
      arguments and of the history of events so far;
    - a small monad threading the object, [errno] and the event trace, whose
      outcomes are normal return, a raised exception, or a failed [assert].

    Conventions: an LP64 host (an [int] always fits a Fixnum); the receiver
    of every method is an instance created by [magic_allocate], hence a
    T_DATA object; receivers are not frozen, so [rb_ivar_set] succeeds. *)

From Stdlib Require Import ZArith List String Bool Lia.
Import ListNotations.

Local Open Scope string_scope.
Local Open Scope list_scope.
Local Open Scope Z_scope.

#[local] Set Warnings "-register-all".

(** ** Interpreter values *)

Inductive VALUE : Type :=
| Qnil
| Qtrue
| Qfalse
| Fixnum (n : Z)
| Bignum (n : Z)
| RString (s : string)
| RArray (l : list VALUE)
| RData.                              (* the receiver: a wrapped magic_t *)

Inductive ruby_value_type : Type :=
| T_NIL | T_TRUE | T_FALSE | T_FIXNUM | T_BIGNUM | T_STRING | T_ARRAY | T_DATA.

Definition TYPE (v : VALUE) : ruby_value_type :=
  match v with
  | Qnil => T_NIL
  | Qtrue => T_TRUE
  | Qfalse => T_FALSE
  | Fixnum _ => T_FIXNUM
  | Bignum _ => T_BIGNUM
  | RString _ => T_STRING
  | RArray _ => T_ARRAY
  | RData => T_DATA
  end.

Definition ruby_value_type_eqb (a b : ruby_value_type) : bool :=
  match a, b with
  | T_NIL, T_NIL | T_TRUE, T_TRUE | T_FALSE, T_FALSE | T_FIXNUM, T_FIXNUM
  | T_BIGNUM, T_BIGNUM | T_STRING, T_STRING | T_ARRAY, T_ARRAY
  | T_DATA, T_DATA => true
  | _, _ => false
  end.

Definition NIL_P (v : VALUE) : bool :=
  match v with Qnil => true | _ => false end.

Definition RTEST (v : VALUE) : bool :=
  match v with Qnil | Qfalse => false | _ => true end.

Definition DATA_P (v : VALUE) : bool := ruby_value_type_eqb (TYPE v) T_DATA.

Definition RARRAY_EMPTY_P (v : VALUE) : bool :=
  match v with RArray [] => true | _ => false end.

Definition INT2NUM (n : Z) : VALUE := Fixnum n.

Definition CSTR2RVAL (s : string) : VALUE := RString s.

Definition INT_MIN : Z := - 2147483648.
Definition INT_MAX : Z := 2147483647.

(** ** errno values (Linux) and library constants *)

Definition EFAULT : Z := 14.
Definition EINVAL : Z := 22.
Definition ENOSYS : Z := 38.

Definition MAGIC_NONE : Z := 0.

(** ** Exceptions *)

Inductive exception_class : Type :=
| rb_eTypeError
| rb_eRangeError
| rb_eNoMethodError
| rb_eThreadError
| rb_eNoMemError
| rb_mgc_eError
| rb_mgc_eMagicError
| rb_mgc_eBadAddressError
| rb_mgc_eFlagsError
| rb_mgc_eNotImplementedError.

(** An exception object: its class, its message, and the [@errno] attribute
    that [rb_define_attr(rb_mgc_eError, "errno", 1, 0)] exposes. *)
Record exception : Type := mk_exception {
  exc_class : exception_class;
  exc_message : string;
  exc_errno : VALUE
}.

(** [struct magic_exception] *)
Record magic_exception_t : Type := mk_magic_exception {
  magic_errno : Z;
  magic_error : string;
  klass : exception_class
}.

(** Indices of the message table [error(...)] used by the unit. *)
Inductive error_index : Type :=
| E_UNKNOWN
| E_CLOSED
| E_NOT_IMPLEMENTED
| E_INVALID_ARGUMENT.

(** ** The object, the events and the world *)

Definition magic_t : Type := Z.       (* a pointer; 0 is NULL *)
Definition NULL : magic_t := 0.

Inductive native_function : Type :=
| F_magic_open | F_magic_close | F_magic_load | F_magic_check
| F_magic_compile | F_magic_file | F_magic_buffer | F_magic_descriptor
| F_magic_setflags | F_magic_version | F_magic_getpath
| F_magic_error | F_magic_errno.

Inductive event : Type :=
| EvLock                                        (* Mutex#lock succeeded *)
| EvUnlock                                      (* Mutex#unlock succeeded *)
| EvCall (f : native_function) (cookie : magic_t).  (* NULL: no handle passed *)

(** The receiver. [at_mutex] is [None] while [@mutex] is unset (nil) and
    [Some held] once [rb_mgc_initialize] stored a Mutex there. *)
Record magic_object : Type := mk_object {
  DATA_PTR : magic_t;
  at_flags : VALUE;
  at_path : VALUE;
  at_mutex : option bool
}.

Record world : Type := mk_world {
  object : magic_object;
  errno : Z;
  trace : list event
}.

(** A C string argument: [NULL], a string, or a member that the caller
    never assigned. *)
Inductive path_argument : Type :=
| PathNull
| PathOf (s : string)
| PathIndeterminate.

(** [magic_arguments_t] *)
Record magic_arguments_t : Type := mk_arguments {
  ma_cookie : magic_t;
  ma_path : path_argument;            (* file.path *)
  ma_fd : Z;                          (* file.fd *)
  ma_flags : Z
}.

(** ** What lies outside the translation unit *)

(** The native library and the process environment. Each entry point
    answers as a function of the events that happened before the call, so a
    library with internal state is covered. The two wrappers that report
    through [errno] return the pair (result, errno after the call). *)
Module Lib.
Record t : Type := mk {
  magic_open : list event -> Z -> magic_t;
  magic_load_wrapper : list event -> magic_t -> path_argument -> Z -> Z;
  magic_check_wrapper : list event -> magic_t -> path_argument -> Z -> Z;
  magic_compile_wrapper : list event -> magic_t -> path_argument -> Z -> Z;
  magic_file : list event -> magic_t -> path_argument -> option string;
  magic_buffer : list event -> magic_t -> string -> Z -> option string;
  magic_descriptor : list event -> magic_t -> Z -> option string;
  magic_setflags_wrapper : list event -> magic_t -> Z -> Z * Z;
  magic_version_wrapper : list event -> Z * Z;
  magic_getpath_wrapper : list event -> string;
  magic_error : list event -> magic_t -> option string;
  magic_errno : list event -> magic_t -> Z;
  getenv : list event -> string -> option string
}.
End Lib.

(** What the unit takes from [ruby-magic.h] and is left as a parameter: the
    message table [error(...)] and the two string helpers [magic_split] and
    [magic_join], which are method calls on interpreter objects
    ([String#split], [Array#join]). *)
Module Header.
Record t : Type := mk {
  error : error_index -> string;
  magic_split : VALUE -> VALUE -> VALUE;
  magic_join : VALUE -> VALUE -> VALUE
}.
End Header.

(** ** The monad of the embedding *)

Inductive outcome (A : Type) : Type :=
| Return (a : A)
| Raise (e : exception)
| Abort.                              (* a failed assert(): the process dies *)

Arguments Return {A} a.
Arguments Raise {A} e.
Arguments Abort {A}.

Definition M (A : Type) : Type := world -> outcome A * world.

Definition ret {A : Type} (a : A) : M A := fun w => (Return a, w).

Definition bind {A B : Type} (m : M A) (k : A -> M B) : M B :=
  fun w =>
    match m w with
    | (Return a, w') => k a w'
    | (Raise e, w') => (Raise e, w')
    | (Abort, w') => (Abort, w')
    end.

Declare Scope magic_scope.
Delimit Scope magic_scope with magic.

Notation "x <- c1 ;; c2" := (bind c1 (fun x => c2))
  (at level 61, c1 at next level, right associativity) : magic_scope.
Notation "c1 ;; c2" := (bind c1 (fun _ => c2))
  (at level 61, right associativity) : magic_scope.

Local Open Scope magic_scope.

Definition rb_exc_raise {A : Type} (e : exception) : M A :=
  fun w => (Raise e, w).

Definition assert (b : bool) : M unit :=
  fun w => if b then (Return tt, w) else (Abort, w).

Definition when (b : bool) (m : M unit) : M unit :=
  if b then m else ret tt.

(** [rb_ensure(b_proc, data1, e_proc, data2)]: [e_proc] runs whether
    [b_proc] returns or raises; the outcome of [b_proc] is kept unless
    [e_proc] itself raises. *)
Definition rb_ensure {A : Type} (b_proc : M A) (e_proc : M VALUE) : M A :=
  fun w =>
    match b_proc w with
    | (Abort, w1) => (Abort, w1)
    | (r, w1) =>
        match e_proc w1 with
        | (Return _, w2) => (r, w2)
        | (Raise e, w2) => (Raise e, w2)
        | (Abort, w2) => (Abort, w2)
        end
    end.

(** World accessors. *)

Definition set_object (o : magic_object) (w : world) : world :=
  mk_world o (errno w) (trace w).

Definition set_errno (e : Z) (w : world) : world :=
  mk_world (object w) e (trace w).

Definition log (ev : event) (w : world) : world :=
  mk_world (object w) (errno w) (trace w ++ [ev]).

Definition get_errno : M Z := fun w => (Return (errno w), w).

(** A call into the native library: the answer is read off the history,
    the call is appended to it. *)
Definition native {A : Type} (f : native_function) (cookie : magic_t)
    (answer : list event -> A) : M A :=
  fun w => (Return (answer (trace w)), log (EvCall f cookie) w).

(** The same for the wrappers that also leave a value in [errno]. *)
Definition native_errno (f : native_function) (cookie : magic_t)
    (answer : list event -> Z * Z) : M Z :=
  fun w =>
    let (rv, e) := answer (trace w) in
    (Return rv, set_errno e (log (EvCall f cookie) w)).

(** ** Interpreter primitives *)

Definition type_error : exception :=
  mk_exception rb_eTypeError "wrong argument type" Qnil.

Definition range_error : exception :=
  mk_exception rb_eRangeError "integer too big to convert to `int'" Qnil.

Definition thread_error (msg : string) : exception :=
  mk_exception rb_eThreadError msg Qnil.

Definition no_method_error : exception :=
  mk_exception rb_eNoMethodError "undefined method for nil" Qnil.

Definition Check_Type (v : VALUE) (t : ruby_value_type) : M unit :=
  if ruby_value_type_eqb (TYPE v) t then ret tt else rb_exc_raise type_error.

Definition NUM2INT (v : VALUE) : M Z :=
  match v with
  | Fixnum n =>
      if (INT_MIN <=? n) && (n <=? INT_MAX) then ret n
      else rb_exc_raise range_error
  | Bignum _ => rb_exc_raise range_error
  | _ => rb_exc_raise type_error
  end.

(** [StringValuePtr] *)
Definition RVAL2CSTR (v : VALUE) : M string :=
  match v with
  | RString s => ret s
  | _ => rb_exc_raise type_error
  end.

Definition RSTRING_LEN (s : string) : Z := Z.of_nat (String.length s).

Definition rb_memerror {A : Type} : M A :=
  rb_exc_raise (mk_exception rb_eNoMemError "failed to allocate memory" Qnil).

Inductive ID : Type := id_at_flags | id_at_path.

Definition rb_ivar_get (id : ID) : M VALUE :=
  fun w =>
    match id with
    | id_at_flags => (Return (at_flags (object w)), w)
    | id_at_path => (Return (at_path (object w)), w)
    end.

Definition rb_ivar_set (id : ID) (v : VALUE) : M VALUE :=
  fun w =>
    let o := object w in
    match id with
    | id_at_flags =>
        (Return v, set_object (mk_object (DATA_PTR o) v (at_path o) (at_mutex o)) w)
    | id_at_path =>
        (Return v, set_object (mk_object (DATA_PTR o) (at_flags o) v (at_mutex o)) w)
    end.

(** [rb_ivar_set(object, id_at_mutex, mutex)] with a fresh Mutex. *)
Definition rb_ivar_set_mutex : M unit :=
  fun w =>
    let o := object w in
    (Return tt, set_object (mk_object (DATA_PTR o) (at_flags o) (at_path o) (Some false)) w).

Definition set_DATA_PTR (p : magic_t) : M unit :=
  fun w =>
    let o := object w in
    (Return tt, set_object (mk_object p (at_flags o) (at_path o) (at_mutex o)) w).

(** [rb_funcall(rb_ivar_get(object, id_at_mutex), rb_intern("lock"), 0)]:
    nil has no such method; a mutex the running thread already holds
    raises ThreadError. *)
Definition mutex_lock : M unit :=
  fun w =>
    let o := object w in
    match at_mutex o with
    | None => (Raise no_method_error, w)
    | Some true => (Raise (thread_error "deadlock; recursive locking"), w)
    | Some false =>
        (Return tt,
         log EvLock (set_object (mk_object (DATA_PTR o) (at_flags o) (at_path o) (Some true)) w))
    end.

(** [rb_funcall(rb_ivar_get(object, id_at_mutex), rb_intern("unlock"), 0)] *)
Definition mutex_unlock : M unit :=
  fun w =>
    let o := object w in
    match at_mutex o with
    | None => (Raise no_method_error, w)
    | Some false =>
        (Raise (thread_error "Attempt to unlock a mutex which is not locked"), w)
    | Some true =>
        (Return tt,
         log EvUnlock (set_object (mk_object (DATA_PTR o) (at_flags o) (at_path o) (Some false)) w))
    end.

(** ** The translation unit *)

Section RubyMagic.

Variable H : Header.t.
Variable L : Lib.t.

(** [getenv("MAGIC")]: a read of the process environment. *)
Definition getenv (name : string) : M (option string) :=
  fun w => (Return (Lib.getenv L (trace w) name), w).

(** *** Macros of ruby-magic.h *)

(** Modelled from the spec: the macro [MAGIC_COOKIE(c)] of [ruby-magic.h],
    whose text is missing. "A single opaque handle type (native library
    cookie) is wrapped in a host-language object": the macro reads the
    wrapped pointer of the receiver into [c]. *)
Definition MAGIC_COOKIE : M magic_t :=
  fun w => (Return (DATA_PTR (object w)), w).

(** Modelled from the spec: the macro [NOGVL(f, d)] of [ruby-magic.h],
    whose text is missing. "The native call performed outside the
    interpreter's global lock": the call [f(d)]; the global lock itself is
    not part of the model. *)
Definition NOGVL {A : Type} (f : magic_arguments_t -> M A)
    (d : magic_arguments_t) : M A := f d.

(** *** Exceptions *)

Definition magic_exception_wrapper (e : magic_exception_t) : exception :=
  mk_exception (klass e) (magic_error e) Qnil.          (* rb_exc_new2 *)

(** The [assert(e != NULL)] holds at both call sites, which pass the address
    of a local; building the exception object under [rb_protect] is taken
    to succeed. *)
Definition magic_exception (e : magic_exception_t) : exception :=
  let object := magic_exception_wrapper e in
  (* rb_iv_set(object, "@errno", INT2NUM(e->magic_errno)) *)
  mk_exception (exc_class object) (exc_message object) (INT2NUM (magic_errno e)).

Definition magic_generic_error (klass : exception_class) (magic_errno : Z)
    (magic_error : string) : exception :=
  magic_exception (mk_magic_exception magic_errno magic_error klass).

Definition magic_library_error (klass : exception_class) (data : magic_t)
    : M exception :=
  let cookie := data in
  assert (negb (cookie =? NULL)) ;;
  message <- native F_magic_error cookie (fun h => Lib.magic_error L h cookie) ;;
  match message with
  | Some m =>
      n <- native F_magic_errno cookie (fun h => Lib.magic_errno L h cookie) ;;
      ret (magic_exception (mk_magic_exception n m klass))
  | None =>
      ret (magic_exception
             (mk_magic_exception (-1) (Header.error H E_UNKNOWN) klass))
  end.

(** Modelled from the spec: the macro [MAGIC_GENERIC_ERROR(k, e, m)] of
    [ruby-magic.h], whose text is missing. "Exceptions raised carry an
    errno-like attribute plus a message": it raises what
    [magic_generic_error] builds. *)
Definition MAGIC_GENERIC_ERROR {A : Type} (k : exception_class) (e : Z)
    (m : string) : M A :=
  rb_exc_raise (magic_generic_error k e m).

(** Modelled from the spec: the macro [MAGIC_LIBRARY_ERROR(c)] of
    [ruby-magic.h], whose text is missing. "A generic library error, raised
    when the native call fails and the library can supply a message/errno":
    it raises what [magic_library_error] builds, in the class the unit
    registers for the library's own errors. *)
Definition MAGIC_LIBRARY_ERROR {A : Type} (c : magic_t) : M A :=
  e <- magic_library_error rb_mgc_eMagicError c ;;
  rb_exc_raise e.

(** *** Allocation and release *)

Definition magic_free (data : magic_t) : M unit :=
  let cookie := data in
  when (negb (cookie =? NULL))
       (native F_magic_close cookie (fun _ => tt)).

Definition magic_allocate : M VALUE :=
  cookie <- native F_magic_open NULL (fun h => Lib.magic_open L h MAGIC_NONE) ;;
  when (cookie =? NULL) rb_memerror ;;
  (* Data_Wrap_Struct(klass, NULL, magic_free, cookie) *)
  (fun w => (Return RData, set_object (mk_object cookie Qnil Qnil None) w)).

(** *** Locking *)

Definition magic_unlock : M VALUE :=
  mutex_unlock ;;
  ret Qnil.

Definition magic_lock {A : Type} (function : magic_arguments_t -> M A)
    (data : magic_arguments_t) : M A :=
  mutex_lock ;;
  rb_ensure (function data) magic_unlock.

(** Modelled from the spec: the macro [MAGIC_SYNCHRONIZED(f, d)] of
    [ruby-magic.h], whose text is missing. "Every operation on a given
    object acquires an object-local mutex before invoking the native
    function": the call [magic_lock(object, f, d)]. *)
Definition MAGIC_SYNCHRONIZED {A : Type} (f : magic_arguments_t -> M A)
    (d : magic_arguments_t) : M A := magic_lock f d.

(** *** The calls made without the global lock *)

Definition nogvl_magic_load (data : magic_arguments_t)
    : M (option magic_arguments_t) :=
  let ma := data in
  rv <- native F_magic_load (ma_cookie ma)
          (fun h => Lib.magic_load_wrapper L h (ma_cookie ma) (ma_path ma) (ma_flags ma)) ;;
  ret (if rv <? 0 then None else Some data).

Definition nogvl_magic_check (data : magic_arguments_t)
    : M (option magic_arguments_t) :=
  let ma := data in
  rv <- native F_magic_check (ma_cookie ma)
          (fun h => Lib.magic_check_wrapper L h (ma_cookie ma) (ma_path ma) (ma_flags ma)) ;;
  ret (if rv <? 0 then None else Some data).

Definition nogvl_magic_compile (data : magic_arguments_t)
    : M (option magic_arguments_t) :=
  let ma := data in
  rv <- native F_magic_compile (ma_cookie ma)
          (fun h => Lib.magic_compile_wrapper L h (ma_cookie ma) (ma_path ma) (ma_flags ma)) ;;
  ret (if rv <? 0 then None else Some data).

Definition nogvl_magic_file (data : magic_arguments_t) : M (option string) :=
  let ma := data in
  native F_magic_file (ma_cookie ma)
    (fun h => Lib.magic_file L h (ma_cookie ma) (ma_path ma)).

Definition nogvl_magic_descriptor (data : magic_arguments_t)
    : M (option string) :=
  let ma := data in
  native F_magic_descriptor (ma_cookie ma)
    (fun h => Lib.magic_descriptor L h (ma_cookie ma) (ma_fd ma)).

Definition magic_load_internal (data : magic_arguments_t) :=
  NOGVL nogvl_magic_load data.

Definition magic_check_internal (data : magic_arguments_t) :=
  NOGVL nogvl_magic_check data.

Definition magic_compile_internal (data : magic_arguments_t) :=
  NOGVL nogvl_magic_compile data.

Definition magic_file_internal (data : magic_arguments_t) :=
  NOGVL nogvl_magic_file data.

Definition magic_descriptor_internal (data : magic_arguments_t) :=
  NOGVL nogvl_magic_descriptor data.

(** *** The methods *)

Definition rb_mgc_close : M VALUE :=
  cookie <- MAGIC_COOKIE ;;
  when (negb (cookie =? NULL))
       (magic_free cookie ;;
        when (DATA_P RData) (set_DATA_PTR NULL)) ;;
  ret Qnil.

Definition rb_mgc_closed : M VALUE :=
  cookie <- MAGIC_COOKIE ;;
  ptr <- (fun w => (Return (DATA_PTR (object w)), w)) ;;
  if DATA_P RData && negb (ptr =? NULL) && negb (cookie =? NULL)
  then ret Qfalse
  else ret Qtrue.

(** Modelled from the spec: the macro [CHECK_MAGIC_OPEN(o)] of
    [ruby-magic.h], whose text is missing. "Operating on a closed object
    always raises": the check asks [rb_mgc_closed] and raises through
    [MAGIC_GENERIC_ERROR]; the class is the one the unit registers and uses
    nowhere else, [rb_mgc_eBadAddressError], with EFAULT. *)
Definition CHECK_MAGIC_OPEN : M unit :=
  closed <- rb_mgc_closed ;;
  when (RTEST closed)
       (MAGIC_GENERIC_ERROR rb_mgc_eBadAddressError EFAULT
          (Header.error H E_CLOSED)).

Definition rb_mgc_initialize : M VALUE :=
  (* a block given to new only produces a warning *)
  rb_ivar_set_mutex ;;
  cookie <- MAGIC_COOKIE ;;
  let ma := mk_arguments cookie PathNull 0 MAGIC_NONE in
  r <- MAGIC_SYNCHRONIZED magic_load_internal ma ;;
  when (match r with None => true | Some _ => false end)
       (MAGIC_LIBRARY_ERROR (ma_cookie ma)) ;;
  rb_ivar_set id_at_flags (INT2NUM (ma_flags ma)) ;;
  ret RData.

(** [Magic.new]: the allocator, then [initialize]. *)
Definition Magic_new : M VALUE :=
  magic_allocate ;;
  rb_mgc_initialize.

Definition rb_mgc_get_path : M VALUE :=
  CHECK_MAGIC_OPEN ;;
  value <- rb_ivar_get id_at_path ;;
  env <- getenv "MAGIC" ;;
  if negb (NIL_P value) && negb (RARRAY_EMPTY_P value)
     && match env with None => true | Some _ => false end
  then ret value
  else
    cstring <- native F_magic_getpath NULL (Lib.magic_getpath_wrapper L) ;;
    let value := Header.magic_split H (CSTR2RVAL cstring) (CSTR2RVAL ":") in
    rb_ivar_set id_at_path value.

Definition rb_mgc_get_flags : M VALUE :=
  CHECK_MAGIC_OPEN ;;
  rb_ivar_get id_at_flags.

Definition rb_mgc_set_flags (value : VALUE) : M VALUE :=
  Check_Type value T_FIXNUM ;;
  CHECK_MAGIC_OPEN ;;
  cookie <- MAGIC_COOKIE ;;
  n <- NUM2INT value ;;
  rv <- native_errno F_magic_setflags cookie
          (fun h => Lib.magic_setflags_wrapper L h cookie n) ;;
  when (rv <? 0)
       (local_errno <- get_errno ;;
        if local_errno =? ENOSYS then
          MAGIC_GENERIC_ERROR rb_mgc_eNotImplementedError ENOSYS
            (Header.error H E_NOT_IMPLEMENTED)
        else if local_errno =? EINVAL then
          MAGIC_GENERIC_ERROR rb_mgc_eFlagsError EINVAL
            (Header.error H E_INVALID_ARGUMENT)
        else
          MAGIC_LIBRARY_ERROR cookie) ;;
  rb_ivar_set id_at_flags value.

Definition rb_mgc_load (arguments : VALUE) : M VALUE :=
  CHECK_MAGIC_OPEN ;;
  cookie <- MAGIC_COOKIE ;;
  path <- (if negb (RARRAY_EMPTY_P arguments) then
             let value := Header.magic_join H arguments (CSTR2RVAL ":") in
             RVAL2CSTR value
           else
             native F_magic_getpath NULL (Lib.magic_getpath_wrapper L)) ;;
  flags <- rb_mgc_get_flags ;;
  flags <- NUM2INT flags ;;
  let ma := mk_arguments cookie (PathOf path) 0 flags in
  r <- MAGIC_SYNCHRONIZED magic_load_internal ma ;;
  when (match r with None => true | Some _ => false end)
       (MAGIC_LIBRARY_ERROR (ma_cookie ma)) ;;
  let value := Header.magic_split H (CSTR2RVAL path) (CSTR2RVAL ":") in
  rb_ivar_set id_at_path value.

Definition rb_mgc_check (arguments : VALUE) : M VALUE :=
  CHECK_MAGIC_OPEN ;;
  cookie <- MAGIC_COOKIE ;;
  path <- (if negb (RARRAY_EMPTY_P arguments) then
             let value := Header.magic_join H arguments (CSTR2RVAL ":") in
             s <- RVAL2CSTR value ;;
             ret (PathOf s)
           else
             ret PathIndeterminate) ;;
  flags <- rb_mgc_get_flags ;;
  flags <- NUM2INT flags ;;
  let ma := mk_arguments cookie path 0 flags in
  r <- MAGIC_SYNCHRONIZED magic_check_internal ma ;;
  match r with
  | None => ret Qfalse
  | Some _ => ret Qtrue
  end.

Definition rb_mgc_compile (arguments : VALUE) : M VALUE :=
  CHECK_MAGIC_OPEN ;;
  cookie <- MAGIC_COOKIE ;;
  path <- (if negb (RARRAY_EMPTY_P arguments) then
             let value := Header.magic_join H arguments (CSTR2RVAL ":") in
             s <- RVAL2CSTR value ;;
             ret (PathOf s)
           else
             ret PathIndeterminate) ;;
  flags <- rb_mgc_get_flags ;;
  flags <- NUM2INT flags ;;
  let ma := mk_arguments cookie path 0 flags in
  r <- MAGIC_SYNCHRONIZED magic_compile_internal ma ;;
  when (match r with None => true | Some _ => false end)
       (MAGIC_LIBRARY_ERROR (ma_cookie ma)) ;;
  ret Qtrue.

Definition rb_mgc_file (value : VALUE) : M VALUE :=
  Check_Type value T_STRING ;;
  CHECK_MAGIC_OPEN ;;
  cookie <- MAGIC_COOKIE ;;
  path <- RVAL2CSTR value ;;
  let ma := mk_arguments cookie (PathOf path) 0 0 in
  cstring <- MAGIC_SYNCHRONIZED magic_file_internal ma ;;
  match cstring with
  | None => MAGIC_LIBRARY_ERROR (ma_cookie ma)
  | Some s => ret (CSTR2RVAL s)
  end.

Definition rb_mgc_buffer (value : VALUE) : M VALUE :=
  Check_Type value T_STRING ;;
  CHECK_MAGIC_OPEN ;;
  cookie <- MAGIC_COOKIE ;;
  buffer <- RVAL2CSTR value ;;
  cstring <- native F_magic_buffer cookie
               (fun h => Lib.magic_buffer L h cookie buffer (RSTRING_LEN buffer)) ;;
  match cstring with
  | None => MAGIC_LIBRARY_ERROR cookie
  | Some s => ret (CSTR2RVAL s)
  end.

Definition rb_mgc_descriptor (value : VALUE) : M VALUE :=
  Check_Type value T_FIXNUM ;;
  CHECK_MAGIC_OPEN ;;
  cookie <- MAGIC_COOKIE ;;
  fd <- NUM2INT value ;;
  let ma := mk_arguments cookie PathIndeterminate fd 0 in
  cstring <- MAGIC_SYNCHRONIZED magic_descriptor_internal ma ;;
  match cstring with
  | None => MAGIC_LIBRARY_ERROR (ma_cookie ma)
  | Some s => ret (CSTR2RVAL s)
  end.

Definition rb_mgc_version : M VALUE :=
  rv <- native_errno F_magic_version NULL (Lib.magic_version_wrapper L) ;;
  local_errno <- get_errno ;;
  when ((rv <? 0) && (local_errno =? ENOSYS))
       (MAGIC_GENERIC_ERROR rb_mgc_eNotImplementedError ENOSYS
          (Header.error H E_NOT_IMPLEMENTED)) ;;
  ret (INT2NUM rv).

(** *** The method table of [Init_magic] *)

(** The exposed operations with their arguments. [load], [compile] and
    [check] are registered with arity -2: they receive their arguments as
    one array. *)
Inductive operation : Type :=
| op_close
| op_closed_p
| op_path
| op_flags
| op_set_flags (value : VALUE)
| op_file (value : VALUE)
| op_buffer (value : VALUE)
| op_descriptor (value : VALUE)
| op_load (arguments : list VALUE)
| op_compile (arguments : list VALUE)
| op_check (arguments : list VALUE)
| op_version.

(** The function that [Init_magic] registers under each name. [version] is
    registered with [rb_define_singleton_method]: it belongs to the class
    and receives the class as [object]. *)
Definition Init_magic (op : operation) : M VALUE :=
  match op with
  | op_close => rb_mgc_close
  | op_closed_p => rb_mgc_closed
  | op_path => rb_mgc_get_path
  | op_flags => rb_mgc_get_flags
  | op_set_flags value => rb_mgc_set_flags value
  | op_file value => rb_mgc_file value
  | op_buffer value => rb_mgc_buffer value
  | op_descriptor value => rb_mgc_descriptor value
  | op_load arguments => rb_mgc_load (RArray arguments)
  | op_compile arguments => rb_mgc_compile (RArray arguments)
  | op_check arguments => rb_mgc_check (RArray arguments)
  | op_version => rb_mgc_version
  end.

End RubyMagic.

(** ** Observations on runs *)

(** The events a computation adds to the trace. *)
Definition events_of {A : Type} (m : M A) (w : world) : list event :=
  skipn (List.length (trace w)) (trace (snd (m w))).

(** The native calls that the unit routes through [MAGIC_SYNCHRONIZED]. *)
Definition synchronized_call (f : native_function) : bool :=
  match f with
  | F_magic_load | F_magic_check | F_magic_compile
  | F_magic_file | F_magic_descriptor => true
  | _ => false
  end.

Definition every_call (f : native_function) : bool := true.

(** A run keeps the lock discipline for the calls selected by [guarded]:
    lock and unlock alternate, a selected call happens only while the mutex
    is held, and the mutex is free when the run ends. *)
Fixpoint lock_discipline (guarded : native_function -> bool) (held : bool)
    (evs : list event) : bool :=
  match evs with
  | [] => negb held
  | EvLock :: rest => negb held && lock_discipline guarded true rest
  | EvUnlock :: rest => held && lock_discipline guarded false rest
  | EvCall f _ :: rest =>
      implb (guarded f) held && lock_discipline guarded held rest
  end.

(** The operations that start with [CHECK_MAGIC_OPEN]. *)
Definition checks_open (op : operation) : bool :=
  match op with
  | op_close | op_closed_p | op_version => false
  | _ => true
  end.

(** The outcome of an operation and the world it leaves. *)
Definition result_of {A : Type} (m : M A) (w : world) : outcome A := fst (m w).
Definition world_after {A : Type} (m : M A) (w : world) : world := snd (m w).

Section Observations.

Variable H : Header.t.
Variable L : Lib.t.

(** The string that [load], [compile] and [check] hand to the library when
    they are given arguments. *)
Definition joined (arguments : list VALUE) : option string :=
  match Header.magic_join H (RArray arguments) (CSTR2RVAL ":") with
  | RString s => Some s
  | _ => None
  end.

(** [@flags] as an [int], when it is one. *)
Definition int_flags (w : world) : option Z :=
  match at_flags (object w) with
  | Fixnum n => if (INT_MIN <=? n) && (n <=? INT_MAX) then Some n else None
  | _ => None
  end.

(** [wrapped_call_fails op w]: the arguments of [op] pass its checks and the
    native call that [op] wraps, made from world [w], answers with a negative
    value or with NULL. The history at the call is the trace of [w] followed
    by what [op] does before the call. *)
Definition wrapped_call_fails (op : operation) (w : world) : Prop :=
  let c := DATA_PTR (object w) in
  match op with
  | op_file (RString s) =>
      Lib.magic_file L (trace w ++ [EvLock]) c (PathOf s) = None
  | op_buffer (RString s) =>
      Lib.magic_buffer L (trace w) c s (RSTRING_LEN s) = None
  | op_descriptor (Fixnum fd) =>
      INT_MIN <= fd <= INT_MAX /\
      Lib.magic_descriptor L (trace w ++ [EvLock]) c fd = None
  | op_load [] =>
      exists n, int_flags w = Some n /\
        Lib.magic_load_wrapper L
          (trace w ++ [EvCall F_magic_getpath NULL; EvLock]) c
          (PathOf (Lib.magic_getpath_wrapper L (trace w))) n < 0
  | op_load arguments =>
      exists n s, int_flags w = Some n /\ joined arguments = Some s /\
        Lib.magic_load_wrapper L (trace w ++ [EvLock]) c (PathOf s) n < 0
  | op_compile [] =>
      exists n, int_flags w = Some n /\
        Lib.magic_compile_wrapper L (trace w ++ [EvLock]) c PathIndeterminate n < 0
  | op_compile arguments =>
      exists n s, int_flags w = Some n /\ joined arguments = Some s /\
        Lib.magic_compile_wrapper L (trace w ++ [EvLock]) c (PathOf s) n < 0
  | op_check [] =>
      exists n, int_flags w = Some n /\
        Lib.magic_check_wrapper L (trace w ++ [EvLock]) c PathIndeterminate n < 0
  | op_check arguments =>
      exists n s, int_flags w = Some n /\ joined arguments = Some s /\
        Lib.magic_check_wrapper L (trace w ++ [EvLock]) c (PathOf s) n < 0
  | _ => False
  end.

(** The history at which [magic_library_error] questions the library after
    the wrapped call of [op] failed. *)
Definition lookup_history (op : operation) (w : world) : list event :=
  let c := DATA_PTR (object w) in
  match op with
  | op_load [] =>
      trace w ++ [EvCall F_magic_getpath NULL; EvLock; EvCall F_magic_load c; EvUnlock]
  | op_load _ => trace w ++ [EvLock; EvCall F_magic_load c; EvUnlock]
  | op_compile _ => trace w ++ [EvLock; EvCall F_magic_compile c; EvUnlock]
  | op_file _ => trace w ++ [EvLock; EvCall F_magic_file c; EvUnlock]
  | op_descriptor _ => trace w ++ [EvLock; EvCall F_magic_descriptor c; EvUnlock]
  | op_buffer _ => trace w ++ [EvCall F_magic_buffer c]
  | _ => trace w
  end.

(** [e] carries what the library reports at history [h]: its message and
    its error number when it has a message, and otherwise the fallback of
    [magic_library_error] (the unknown-error message and -1). *)
Definition carries_library_error (h : list event) (cookie : magic_t)
    (e : exception) : Prop :=
  match Lib.magic_error L h cookie with
  | Some m =>
      exc_message e = m /\
      exc_errno e =
        INT2NUM (Lib.magic_errno L (h ++ [EvCall F_magic_error cookie]) cookie)
  | None =>
      exc_message e = Header.error H E_UNKNOWN /\ exc_errno e = INT2NUM (-1)
  end.

(** The exception of [MAGIC_GENERIC_ERROR] for a missing entry point. *)
Definition not_implemented_error : exception :=
  mk_exception rb_mgc_eNotImplementedError
    (Header.error H E_NOT_IMPLEMENTED) (INT2NUM ENOSYS).

(** The exception of [MAGIC_GENERIC_ERROR] for a rejected flag value. *)
Definition flags_error : exception :=
  mk_exception rb_mgc_eFlagsError
    (Header.error H E_INVALID_ARGUMENT) (INT2NUM EINVAL).

(** The condition under which [rb_mgc_get_path] answers from [@path]. *)
Definition path_cached (w : world) : bool :=
  let value := at_path (object w) in
  negb (NIL_P value) && negb (RARRAY_EMPTY_P value)
  && match Lib.getenv L (trace w) "MAGIC" with None => true | Some _ => false end.

End Observations.

(** ** Further observations *)

(** The operations that reach the library through [MAGIC_SYNCHRONIZED]. *)
Definition takes_lock (op : operation) : bool :=
  match op with
  | op_file _ | op_descriptor _ | op_load _ | op_compile _ | op_check _ => true
  | _ => false
  end.

(** The operations that contain a write to [DATA_PTR], to [@flags] and to
    [@path]. *)
Definition writes_pointer (op : operation) : bool :=
  match op with op_close => true | _ => false end.

Definition writes_flags (op : operation) : bool :=
  match op with op_set_flags _ => true | _ => false end.

Definition writes_path (op : operation) : bool :=
  match op with op_path | op_load _ => true | _ => false end.

(** The entry points of the library that take no handle. *)
Definition handle_free (f : native_function) : bool :=
  match f with
  | F_magic_open | F_magic_getpath | F_magic_version => true
  | _ => false
  end.

(** [ev] is not a call, or a call that passes [c] where a handle is due. *)
Definition call_on (c : magic_t) (ev : event) : bool :=
  match ev with
  | EvCall f c' => if handle_free f then c' =? NULL else c' =? c
  | _ => true
  end.

Definition lock_event (ev : event) : bool :=
  match ev with
  | EvLock | EvUnlock => true
  | EvCall _ _ => false
  end.

Definition close_event (ev : event) : bool :=
  match ev with
  | EvCall F_magic_close _ => true
  | _ => false
  end.

(** The same world with another state of [@mutex]. *)
Definition set_mutex (m : option bool) (w : world) : world :=
  let o := object w in
  set_object (mk_object (DATA_PTR o) (at_flags o) (at_path o) m) w.

Section FurtherObservations.

Variable H : Header.t.
Variable L : Lib.t.

(** What the library answers to the identification call of [file], [buffer]
    or [descriptor] made from [w], when the argument passes the checks of the
    operation. *)
Definition identification (op : operation) (w : world)
    : option (option string) :=
  let c := DATA_PTR (object w) in
  match op with
  | op_file (RString s) =>
      Some (Lib.magic_file L (trace w ++ [EvLock]) c (PathOf s))
  | op_buffer (RString s) =>
      Some (Lib.magic_buffer L (trace w) c s (RSTRING_LEN s))
  | op_descriptor (Fixnum fd) =>
      if (INT_MIN <=? fd) && (fd <=? INT_MAX)
      then Some (Lib.magic_descriptor L (trace w ++ [EvLock]) c fd)
      else None
  | _ => None
  end.



(** The path argument of [check] and [compile]. *)
Definition database_argument (arguments : list VALUE) : option path_argument :=
  match arguments with
  | [] => Some PathIndeterminate
  | _ => match joined H arguments with
         | Some s => Some (PathOf s)
         | None => None
         end
  end.

(** An argument of the wrong class for the operation. *)
Definition wrong_argument (op : operation) : bool :=
  match op with
  | op_set_flags v | op_descriptor v =>
      negb (ruby_value_type_eqb (TYPE v) T_FIXNUM)
  | op_file v | op_buffer v =>
      negb (ruby_value_type_eqb (TYPE v) T_STRING)
  | _ => false
  end.

(** A Fixnum argument that does not fit an [int]. *)
Definition oversized_argument (op : operation) : bool :=
  match op with
  | op_set_flags (Fixnum n) | op_descriptor (Fixnum n) =>
      negb ((INT_MIN <=? n) && (n <=? INT_MAX))
  | _ => false
  end.

End FurtherObservations.

(** ** A concrete library, header and receiver *)

Module Sample.

(** Fields of [s] separated by [c]. *)
Fixpoint fields (c : Ascii.ascii) (s : string) : list string :=
  match s with
  | EmptyString => [EmptyString]
  | String a rest =>
      if Ascii.eqb a c then EmptyString :: fields c rest
      else match fields c rest with
           | [] => [String a EmptyString]
           | x :: xs => String a x :: xs
           end
  end.

(** Trailing empty fields are dropped, as [String#split] does. *)
Fixpoint drop_trailing_empty (l : list string) : list string :=
  match l with
  | [] => []
  | x :: xs =>
      match drop_trailing_empty xs with
      | [] => if String.eqb x EmptyString then [] else [x]
      | ys => x :: ys
      end
  end.

Definition split (s sep : VALUE) : VALUE :=
  match s, sep with
  | RString s, RString (String c EmptyString) =>
      RArray (map RString (drop_trailing_empty (fields c s)))
  | _, _ => Qnil
  end.

Definition to_s (v : VALUE) : string :=
  match v with RString s => s | _ => EmptyString end.

Definition join (a sep : VALUE) : VALUE :=
  match a, sep with
  | RArray l, RString sep => RString (String.concat sep (map to_s l))
  | _, _ => Qnil
  end.

Definition header : Header.t :=
  Header.mk
    (fun i =>
       match i with
       | E_UNKNOWN => "an unknown error has occurred"
       | E_CLOSED => "Magic library is not open"
       | E_NOT_IMPLEMENTED => "function is not implemented"
       | E_INVALID_ARGUMENT => "invalid argument"
       end)
    split join.

(** A library whose calls all answer [rv] (or [result]) and leave [en] in
    errno; [message] is what [magic_error] reports. *)
Definition library (rv en : Z) (result message : option string) : Lib.t :=
  Lib.mk
    (fun _ _ => 4096)
    (fun _ _ _ _ => rv) (fun _ _ _ _ => rv) (fun _ _ _ _ => rv)
    (fun _ _ _ => result) (fun _ _ _ _ => result) (fun _ _ _ => result)
    (fun _ _ _ => (rv, en))
    (fun _ => (rv, en))
    (fun _ => "/etc/magic:/usr/share/misc/magic")
    (fun _ _ => message)
    (fun _ _ => en)
    (fun _ _ => None).

Definition working : Lib.t := library 0 0 (Some "ASCII text") None.

Definition failing : Lib.t :=
  library (-1) 2 None (Some "could not find any valid magic files!").

Definition opened : world :=
  mk_world (mk_object 4096 (Fixnum 0) Qnil (Some false)) 0 [].

Definition closed : world :=
  mk_world (mk_object NULL (Fixnum 0) Qnil (Some false)) 0
           [EvCall F_magic_close 4096].

Definition blank : world :=
  mk_world (mk_object NULL Qnil Qnil None) 0 [].

(** The world that [Magic.new] leaves when started from [blank]. *)
Definition fresh : world :=
  mk_world (mk_object 4096 (Fixnum 0) Qnil (Some false)) 0
    [EvCall F_magic_open NULL; EvLock; EvCall F_magic_load 4096; EvUnlock].

(** An open receiver whose [@path] holds a list. *)
Definition cached : world :=
  mk_world (mk_object 4096 (Fixnum 0) (RArray [RString "/etc/magic"])
              (Some false)) 0 [].

(** A body for [magic_lock] that raises. *)
Definition raising (data : magic_arguments_t) : M VALUE :=
  rb_exc_raise type_error.

(** A library that cannot allocate a handle. *)
Definition exhausted : Lib.t :=
  Lib.mk
    (fun _ _ => NULL)
    (Lib.magic_load_wrapper working) (Lib.magic_check_wrapper working)
    (Lib.magic_compile_wrapper working)
    (Lib.magic_file working) (Lib.magic_buffer working)
    (Lib.magic_descriptor working)
    (Lib.magic_setflags_wrapper working) (Lib.magic_version_wrapper working)
    (Lib.magic_getpath_wrapper working)
    (Lib.magic_error working) (Lib.magic_errno working) (Lib.getenv working).

(** A library whose calls fail with EPERM and a message. *)
Definition refusing : Lib.t :=
  library (-1) 1 None (Some "operation not permitted").

End Sample.

(** ** Sanity checks on concrete runs *)

Example sample_split_doc :
  Sample.split (RString "/etc/magic:/usr/share/misc/magic") (RString ":")
  = RArray [RString "/etc/magic"; RString "/usr/share/misc/magic"].
Proof. reflexivity. Qed.

Example sample_new :
  Magic_new Sample.header Sample.working Sample.blank
  = (Return RData, Sample.fresh).
Proof. reflexivity. Qed.

Example sample_path :
  fst (rb_mgc_get_path Sample.header Sample.working Sample.opened)
  = Return (RArray [RString "/etc/magic"; RString "/usr/share/misc/magic"]).
Proof. reflexivity. Qed.

Example sample_file_fails :
  fst (rb_mgc_file Sample.header Sample.failing (RString "/nonexistent") Sample.opened)
  = Raise (mk_exception rb_mgc_eMagicError
             "could not find any valid magic files!" (Fixnum 2)).
Proof. reflexivity. Qed.

(** ** Proof tools *)

Ltac unfold_once :=
  unfold result_of, world_after, events_of, Magic_new,
    Init_magic, rb_mgc_close, rb_mgc_closed, rb_mgc_get_path,
    rb_mgc_get_flags, rb_mgc_set_flags, rb_mgc_load, rb_mgc_check,
    rb_mgc_compile, rb_mgc_file, rb_mgc_buffer, rb_mgc_descriptor,
    rb_mgc_version, rb_mgc_initialize, magic_allocate,
    CHECK_MAGIC_OPEN, rb_mgc_closed,
    MAGIC_SYNCHRONIZED, magic_lock, magic_unlock, rb_ensure,
    magic_load_internal, magic_check_internal, magic_compile_internal,
    magic_file_internal, magic_descriptor_internal, NOGVL,
    nogvl_magic_load, nogvl_magic_check, nogvl_magic_compile,
    nogvl_magic_file, nogvl_magic_descriptor,
    MAGIC_LIBRARY_ERROR, MAGIC_GENERIC_ERROR, magic_library_error,
    magic_generic_error, magic_exception, magic_exception_wrapper,
    magic_free, MAGIC_COOKIE, getenv,
    Check_Type, NUM2INT, RVAL2CSTR, rb_memerror, rb_ivar_get, rb_ivar_set,
    rb_ivar_set_mutex, set_DATA_PTR, mutex_lock, mutex_unlock,
    native, native_errno, get_errno, assert, when, rb_exc_raise,
    bind, ret, log, set_errno, set_object in *.

Ltac unfold_unit := repeat progress unfold_once.

Ltac case_step :=
  match goal with
  | |- context [match ?x with _ => _ end] =>
      lazymatch x with
      | context [match _ with _ => _ end] => fail
      | _ => destruct x eqn:?
      end
  end.

Lemma open_not_null ptr : ptr <> NULL -> (ptr =? NULL) = false.
Proof. intros Hp. apply Z.eqb_neq. exact Hp. Qed.

Lemma in_int_range n :
  INT_MIN <= n <= INT_MAX -> (INT_MIN <=? n) && (n <=? INT_MAX) = true.
Proof. intros Hn. apply andb_true_iff; split; apply Z.leb_le; lia. Qed.

Lemma not_negative rv : 0 <= rv -> (rv <? 0) = false.
Proof. intros Hrv. apply Z.ltb_ge. exact Hrv. Qed.

Lemma negative rv : rv < 0 -> (rv <? 0) = true.
Proof. intros Hrv. apply Z.ltb_lt. exact Hrv. Qed.

(** ** C1: operations on a closed object

    C1, amended. On a receiver whose cookie is NULL, every operation that
    starts with the open check (path, flags, flags=, load, check, compile,
    file, buffer, descriptor) raises and leaves the world as it was, so
    nothing reaches the library. close returns nil, closed? returns true,
    and version gives the same outcome whatever the receiver holds. *)
Theorem closed_object_raises H L op w :
  DATA_PTR (object w) = NULL ->
  (checks_open op = true ->
     exists e, Init_magic H L op w = (Raise e, w)) /\
  Init_magic H L op_close w = (Return Qnil, w) /\
  Init_magic H L op_closed_p w = (Return Qtrue, w) /\
  (forall o, result_of (Init_magic H L op_version) (set_object o w)
             = result_of (Init_magic H L op_version) w).
Proof.
  destruct w as [[ptr fl pa mu] en tr]; cbn [object DATA_PTR]; intros ->.
  repeat split.
  - destruct op; cbn [checks_open]; try discriminate; intros _;
      unfold_unit; cbn.
    all: try (eexists; reflexivity).
    all: destruct value; cbn; eexists; reflexivity.
  - intros o. unfold_unit. cbn.
    destruct (Lib.magic_version_wrapper L tr) as [rv e']. cbn.
    destruct ((rv <? 0) && (e' =? ENOSYS)); reflexivity.
Qed.

Lemma closed_object_raises_witness :
  DATA_PTR (object Sample.closed) = NULL /\
  checks_open op_flags = true /\
  exists e,
    Init_magic Sample.header Sample.working op_flags Sample.closed
    = (Raise e, Sample.closed).
Proof.
  split; [reflexivity | split; [reflexivity |]].
  exact (proj1 (closed_object_raises Sample.header Sample.working op_flags
                  Sample.closed eq_refl) eq_refl).
Defined.

(** C1 as stated fails: closed? on a closed receiver returns true. *)
Lemma closed_p_returns_on_closed_object :
  DATA_PTR (object Sample.closed) = NULL /\
  result_of (Init_magic Sample.header Sample.working op_closed_p) Sample.closed
  = Return Qtrue /\
  ~ (exists e,
        result_of (Init_magic Sample.header Sample.working op_closed_p)
          Sample.closed = Raise e).
Proof.
  split; [reflexivity | split; [reflexivity |]].
  intros [e E]. vm_compute in E. discriminate E.
Qed.


(** ** C3: flags= then flags

    C3. On an open receiver, for a Fixnum [n] that fits an [int] and that
    the library accepts (the native call does not answer a negative value),
    flags= returns [n] and flags, called next, returns [n]. *)
Theorem flags_roundtrip H L w n :
  DATA_PTR (object w) <> NULL ->
  INT_MIN <= n <= INT_MAX ->
  0 <= fst (Lib.magic_setflags_wrapper L (trace w) (DATA_PTR (object w)) n) ->
  exists w1,
    rb_mgc_set_flags H L (Fixnum n) w = (Return (Fixnum n), w1) /\
    rb_mgc_get_flags H w1 = (Return (Fixnum n), w1).
Proof.
  destruct w as [[ptr fl pa mu] en tr]; cbn [object DATA_PTR trace].
  intros Hopen Hrange Hok.
  unfold_unit. cbn.
  rewrite (open_not_null _ Hopen), (in_int_range _ Hrange). cbn.
  destruct (Lib.magic_setflags_wrapper L tr ptr n) as [rv e'].
  cbn in Hok |- *.
  rewrite (not_negative _ Hok). cbn.
  eexists; split; [reflexivity |].
  cbn. rewrite (open_not_null _ Hopen). reflexivity.
Qed.

Lemma flags_roundtrip_witness :
  DATA_PTR (object Sample.opened) <> NULL /\
  INT_MIN <= 1040 <= INT_MAX /\
  0 <= fst (Lib.magic_setflags_wrapper Sample.working (trace Sample.opened)
              (DATA_PTR (object Sample.opened)) 1040) /\
  exists w1,
    rb_mgc_set_flags Sample.header Sample.working (Fixnum 1040) Sample.opened
    = (Return (Fixnum 1040), w1) /\
    rb_mgc_get_flags Sample.header w1 = (Return (Fixnum 1040), w1).
Proof.
  assert (Hopen : DATA_PTR (object Sample.opened) <> NULL)
    by (intros E; vm_compute in E; discriminate E).
  assert (Hrange : INT_MIN <= 1040 <= INT_MAX)
    by (unfold INT_MIN, INT_MAX; lia).
  assert (Hok : 0 <= fst (Lib.magic_setflags_wrapper Sample.working
                            (trace Sample.opened)
                            (DATA_PTR (object Sample.opened)) 1040))
    by (simpl; lia).
  repeat split; try assumption; try apply Hrange.
  exact (flags_roundtrip Sample.header Sample.working Sample.opened 1040
           Hopen Hrange Hok).
Defined.


(** ** C6: a missing entry point

    C6. When the version wrapper answers a negative value with errno ENOSYS,
    version raises the not-implemented error with [@errno] ENOSYS; when the
    flag-setting wrapper does so for an [int] Fixnum on an open receiver,
    flags= raises the same error. *)
Theorem enosys_raises_not_implemented H L w :
  (forall rv,
      Lib.magic_version_wrapper L (trace w) = (rv, ENOSYS) -> rv < 0 ->
      result_of (rb_mgc_version H L) w = Raise (not_implemented_error H)) /\
  (forall n rv,
      DATA_PTR (object w) <> NULL ->
      INT_MIN <= n <= INT_MAX ->
      Lib.magic_setflags_wrapper L (trace w) (DATA_PTR (object w)) n = (rv, ENOSYS) ->
      rv < 0 ->
      result_of (rb_mgc_set_flags H L (Fixnum n)) w = Raise (not_implemented_error H)).
Proof.
  destruct w as [[ptr fl pa mu] en tr]; cbn [object DATA_PTR trace].
  split.
  - intros rv Hv Hneg. unfold_unit. cbn. rewrite Hv. cbn.
    rewrite (negative _ Hneg). reflexivity.
  - intros n rv Hopen Hrange Hs Hneg. unfold_unit. cbn.
    rewrite (open_not_null _ Hopen), (in_int_range _ Hrange). cbn.
    rewrite Hs. cbn. rewrite (negative _ Hneg). reflexivity.
Qed.

Lemma enosys_raises_not_implemented_witness :
  result_of (rb_mgc_version Sample.header (Sample.library (-1) ENOSYS None None))
    Sample.opened
  = Raise (not_implemented_error Sample.header) /\
  result_of (rb_mgc_set_flags Sample.header
               (Sample.library (-1) ENOSYS None None) (Fixnum 16))
    Sample.opened
  = Raise (not_implemented_error Sample.header).
Proof.
  pose proof (enosys_raises_not_implemented Sample.header
                (Sample.library (-1) ENOSYS None None) Sample.opened)
    as [Hversion Hflags].
  split.
  - apply (Hversion (-1)); reflexivity.
  - apply (Hflags 16 (-1)).
    + intros E; vm_compute in E; discriminate E.
    + unfold INT_MIN, INT_MAX; lia.
    + reflexivity.
    + reflexivity.
Defined.


(** ** C7: a rejected flag value

    C7. When flags= is called on an open receiver with an [int] Fixnum and
    the native call answers a negative value with errno EINVAL, flags=
    raises the flags error with [@errno] EINVAL. *)
Theorem einval_raises_flags_error H L w n rv :
  DATA_PTR (object w) <> NULL ->
  INT_MIN <= n <= INT_MAX ->
  Lib.magic_setflags_wrapper L (trace w) (DATA_PTR (object w)) n = (rv, EINVAL) ->
  rv < 0 ->
  result_of (rb_mgc_set_flags H L (Fixnum n)) w = Raise (flags_error H).
Proof.
  destruct w as [[ptr fl pa mu] en tr]; cbn [object DATA_PTR trace].
  intros Hopen Hrange Hs Hneg. unfold_unit. cbn.
  rewrite (open_not_null _ Hopen), (in_int_range _ Hrange). cbn.
  rewrite Hs. cbn. rewrite (negative _ Hneg). reflexivity.
Qed.

Lemma einval_raises_flags_error_witness :
  result_of (rb_mgc_set_flags Sample.header
               (Sample.library (-1) EINVAL None None) (Fixnum 4095))
    Sample.opened
  = Raise (flags_error Sample.header).
Proof.
  apply (einval_raises_flags_error Sample.header
           (Sample.library (-1) EINVAL None None) Sample.opened 4095 (-1)).
  - intros E; vm_compute in E; discriminate E.
  - unfold INT_MIN, INT_MAX; lia.
  - reflexivity.
  - reflexivity.
Defined.


(** ** C8: a raising flags= leaves [@flags] alone

    C8. Whenever flags= raises, whatever the cause, [@flags] holds what it
    held before the call; the receiver is unchanged altogether. *)
Theorem set_flags_raise_keeps_flags H L w value e w' :
  rb_mgc_set_flags H L value w = (Raise e, w') ->
  at_flags (object w') = at_flags (object w) /\ object w' = object w.
Proof.
  destruct w as [[ptr fl pa mu] en tr].
  unfold_unit. cbn.
  repeat (case_step; cbn; try congruence).
  all: intros E; inversion E; subst; split; reflexivity.
Qed.

Lemma set_flags_raise_keeps_flags_witness :
  let w' := mk_world (object Sample.opened) EINVAL
              [EvCall F_magic_setflags 4096] in
  rb_mgc_set_flags Sample.header (Sample.library (-1) EINVAL None None)
    (Fixnum 4095) Sample.opened
  = (Raise (flags_error Sample.header), w') /\
  at_flags (object w') = at_flags (object Sample.opened) /\
  object w' = object Sample.opened.
Proof.
  intros w'. split; [reflexivity |].
  exact (set_flags_raise_keeps_flags Sample.header
           (Sample.library (-1) EINVAL None None) Sample.opened
           (Fixnum 4095) (flags_error Sample.header) w' eq_refl).
Defined.


(** ** C9: close on a closed object

    C9. On a receiver whose cookie is NULL, close returns nil and leaves
    the world as it was: nothing is raised, the library is not called
    again, and closed? still returns true. *)
Theorem close_idempotent w :
  DATA_PTR (object w) = NULL ->
  rb_mgc_close w = (Return Qnil, w) /\ rb_mgc_closed w = (Return Qtrue, w).
Proof.
  destruct w as [[ptr fl pa mu] en tr]; cbn [object DATA_PTR]; intros ->.
  split; reflexivity.
Qed.

Lemma close_idempotent_witness :
  DATA_PTR (object Sample.closed) = NULL /\
  rb_mgc_close Sample.closed = (Return Qnil, Sample.closed) /\
  rb_mgc_closed Sample.closed = (Return Qtrue, Sample.closed).
Proof.
  split; [reflexivity |].
  exact (close_idempotent Sample.closed eq_refl).
Defined.


(** ** C10: path

    C10. On an open receiver, path returns [@path] and changes nothing when
    [@path] is not nil, not empty and MAGIC is unset; in every other case it
    asks the library for its default path, splits it on ":", stores the list
    in [@path] and returns it. *)
Theorem path_cached_or_recomputed H L w :
  DATA_PTR (object w) <> NULL ->
  if path_cached L w
  then rb_mgc_get_path H L w = (Return (at_path (object w)), w)
  else
    let value :=
      Header.magic_split H (CSTR2RVAL (Lib.magic_getpath_wrapper L (trace w)))
                         (CSTR2RVAL ":") in
    result_of (rb_mgc_get_path H L) w = Return value /\
    at_path (object (world_after (rb_mgc_get_path H L) w)) = value /\
    trace (world_after (rb_mgc_get_path H L) w)
      = trace w ++ [EvCall F_magic_getpath NULL].
Proof.
  destruct w as [[ptr fl pa mu] en tr]; cbn [object DATA_PTR trace].
  intros Hopen. unfold path_cached. unfold_unit. cbn.
  rewrite (open_not_null _ Hopen). cbn.
  destruct (negb (NIL_P pa) && negb (RARRAY_EMPTY_P pa)
            && match Lib.getenv L tr "MAGIC" with
               | Some _ => false
               | None => true
               end); cbn.
  - reflexivity.
  - repeat split.
Qed.

Lemma path_cached_or_recomputed_witness :
  DATA_PTR (object Sample.cached) <> NULL /\
  rb_mgc_get_path Sample.header Sample.working Sample.cached
  = (Return (RArray [RString "/etc/magic"]), Sample.cached) /\
  result_of (rb_mgc_get_path Sample.header Sample.working) Sample.opened
  = Return (RArray [RString "/etc/magic"; RString "/usr/share/misc/magic"]).
Proof.
  assert (Hopen : DATA_PTR (object Sample.cached) <> NULL)
    by (intros E; vm_compute in E; discriminate E).
  split; [exact Hopen | split].
  - exact (path_cached_or_recomputed Sample.header Sample.working
             Sample.cached Hopen).
  - exact (proj1 (path_cached_or_recomputed Sample.header Sample.working
                    Sample.opened Hopen)).
Defined.


Lemma skipn_length_app {A : Type} (l r : list A) :
  skipn (List.length l) (l ++ r) = r.
Proof. induction l as [| a l IH]; [reflexivity | exact IH]. Qed.

Lemma events_of_extension {A : Type} (m : M A) (w : world) (evs : list event) :
  trace (snd (m w)) = trace w ++ evs -> events_of m w = evs.
Proof. intros E. unfold events_of. rewrite E. apply skipn_length_app. Qed.

Lemma new_object_is_open H L w v w1 :
  Magic_new H L w = (Return v, w1) ->
  DATA_PTR (object w1) <> NULL /\ at_mutex (object w1) = Some false.
Proof.
  destruct w as [[ptr fl pa mu] en tr].
  unfold_unit. cbn.
  destruct (Lib.magic_open L tr MAGIC_NONE =? NULL) eqn:Eopen; cbn;
    [discriminate |].
  apply Z.eqb_neq in Eopen.
  repeat (case_step; cbn; try discriminate).
  all: intros E; inversion E; subst; cbn; split; [exact Eopen | reflexivity].
Qed.

Lemma close_open_object w :
  DATA_PTR (object w) <> NULL ->
  rb_mgc_close w =
    (Return Qnil,
     mk_world (mk_object NULL (at_flags (object w)) (at_path (object w))
                 (at_mutex (object w)))
       (errno w)
       (trace w ++ [EvCall F_magic_close (DATA_PTR (object w))])).
Proof.
  destruct w as [[ptr fl pa mu] en tr]; cbn [object DATA_PTR trace].
  intros Hopen. unfold_unit. cbn.
  rewrite (open_not_null _ Hopen). reflexivity.
Qed.

(** ** C5: open, then close

    C5. When [Magic.new] returns, the receiver holds a cookie; close then
    hands that cookie to [magic_close], clears the pointer and returns nil,
    after which closed? returns true. *)
Theorem open_then_close_is_closed H L w v w1 :
  Magic_new H L w = (Return v, w1) ->
  DATA_PTR (object w1) <> NULL /\
  exists w2,
    rb_mgc_close w1 = (Return Qnil, w2) /\
    trace w2 = trace w1 ++ [EvCall F_magic_close (DATA_PTR (object w1))] /\
    DATA_PTR (object w2) = NULL /\
    rb_mgc_closed w2 = (Return Qtrue, w2).
Proof.
  intros Hnew.
  destruct (new_object_is_open _ _ _ _ _ Hnew) as [Hopen _].
  split; [exact Hopen |].
  eexists. split; [apply close_open_object; exact Hopen |].
  repeat split.
Qed.

Lemma open_then_close_is_closed_witness :
  Magic_new Sample.header Sample.working Sample.blank
  = (Return RData, Sample.fresh) /\
  exists w2,
    rb_mgc_close Sample.fresh = (Return Qnil, w2) /\
    trace w2
    = trace Sample.fresh ++ [EvCall F_magic_close (DATA_PTR (object Sample.fresh))] /\
    DATA_PTR (object w2) = NULL /\
    rb_mgc_closed w2 = (Return Qtrue, w2).
Proof.
  split; [reflexivity |].
  exact (proj2 (open_then_close_is_closed Sample.header Sample.working
                  Sample.blank RData Sample.fresh eq_refl)).
Defined.


Lemma int_flags_inv w n :
  int_flags w = Some n ->
  at_flags (object w) = Fixnum n /\ (INT_MIN <=? n) && (n <=? INT_MAX) = true.
Proof.
  unfold int_flags. destruct (at_flags (object w)); try discriminate.
  destruct ((INT_MIN <=? n0) && (n0 <=? INT_MAX)) eqn:E; [| discriminate].
  intros [= ->]. split; [reflexivity | exact E].
Qed.

Lemma joined_inv H arguments s :
  joined H arguments = Some s ->
  Header.magic_join H (RArray arguments) (CSTR2RVAL ":") = RString s.
Proof.
  unfold joined.
  destruct (Header.magic_join H (RArray arguments) (CSTR2RVAL ":"));
    try discriminate.
  intros [= ->]. reflexivity.
Qed.

Ltac rewrite_known :=
  match goal with
  | E : ?x = _ |- context [?x] => rewrite E
  end.

Ltac drive := repeat (cbn; rewrite <- ?app_assoc; cbn; rewrite_known); cbn.

Ltac open_world w :=
  let ptr := fresh "ptr" in
  let fl := fresh "fl" in
  let pa := fresh "pa" in
  let mu := fresh "mu" in
  let en := fresh "en" in
  let tr := fresh "tr" in
  destruct w as [[ptr fl pa mu] en tr];
  cbn [object DATA_PTR trace errno at_mutex at_flags at_path] in *.

Ltac library_error_end :=
  unfold carries_library_error, lookup_history; unfold_unit; drive;
  destruct (Lib.magic_error _ _ _); cbn;
  eexists; (split; [reflexivity |]); cbn; repeat split;
  rewrite <- ?app_assoc; reflexivity.

(** ** C2: a failing native call

    C2, amended. On an open receiver whose mutex is free, when the native
    call wrapped by load, compile, file, buffer or descriptor answers a
    negative value or NULL, the operation raises; the exception carries the
    library's message and error number when the library has a message, and
    the unknown-error message with -1 when it has none. check raises
    nothing in that case: it returns false. *)
Theorem native_failure_raises_or_false H L op w :
  DATA_PTR (object w) <> NULL ->
  at_mutex (object w) = Some false ->
  wrapped_call_fails H L op w ->
  match op with
  | op_check _ => result_of (Init_magic H L op) w = Return Qfalse
  | _ =>
      exists e,
        result_of (Init_magic H L op) w = Raise e /\
        carries_library_error H L (lookup_history op w) (DATA_PTR (object w)) e
  end.
Proof.
  intros Hopen Hmutex Hfail.
  apply open_not_null in Hopen.
  destruct op as [ | | | | value | value | value | value
                 | arguments | arguments | arguments | ];
    cbn in Hfail; try contradiction.
  - (* file *)
    destruct value; try contradiction.
    open_world w; subst. library_error_end.
  - (* buffer *)
    destruct value; try contradiction.
    open_world w; subst. library_error_end.
  - (* descriptor *)
    destruct value; try contradiction.
    destruct Hfail as [Hrange Hfail]. apply in_int_range in Hrange.
    open_world w; subst. library_error_end.
  - (* load *)
    destruct arguments as [| a arguments].
    + destruct Hfail as (n & Hflags & Hfail).
      apply int_flags_inv in Hflags. destruct Hflags as [Hfl Hrange].
      apply negative in Hfail.
      open_world w; subst. library_error_end.
    + destruct Hfail as (n & s & Hflags & Hjoin & Hfail).
      apply int_flags_inv in Hflags. destruct Hflags as [Hfl Hrange].
      apply joined_inv in Hjoin. apply negative in Hfail.
      open_world w; subst. library_error_end.
  - (* compile *)
    destruct arguments as [| a arguments].
    + destruct Hfail as (n & Hflags & Hfail).
      apply int_flags_inv in Hflags. destruct Hflags as [Hfl Hrange].
      apply negative in Hfail.
      open_world w; subst. library_error_end.
    + destruct Hfail as (n & s & Hflags & Hjoin & Hfail).
      apply int_flags_inv in Hflags. destruct Hflags as [Hfl Hrange].
      apply joined_inv in Hjoin. apply negative in Hfail.
      open_world w; subst. library_error_end.
  - (* check *)
    destruct arguments as [| a arguments].
    + destruct Hfail as (n & Hflags & Hfail).
      apply int_flags_inv in Hflags. destruct Hflags as [Hfl Hrange].
      apply negative in Hfail.
      open_world w; subst. unfold_unit. drive. reflexivity.
    + destruct Hfail as (n & s & Hflags & Hjoin & Hfail).
      apply int_flags_inv in Hflags. destruct Hflags as [Hfl Hrange].
      apply joined_inv in Hjoin. apply negative in Hfail.
      open_world w; subst. unfold_unit. drive. reflexivity.
Qed.

Lemma native_failure_raises_or_false_witness :
  DATA_PTR (object Sample.opened) <> NULL /\
  at_mutex (object Sample.opened) = Some false /\
  wrapped_call_fails Sample.header Sample.failing
    (op_file (RString "/nonexistent")) Sample.opened /\
  exists e,
    result_of (Init_magic Sample.header Sample.failing
                 (op_file (RString "/nonexistent"))) Sample.opened
    = Raise e /\
    carries_library_error Sample.header Sample.failing
      (lookup_history (op_file (RString "/nonexistent")) Sample.opened)
      (DATA_PTR (object Sample.opened)) e.
Proof.
  assert (Hopen : DATA_PTR (object Sample.opened) <> NULL)
    by (intros E; vm_compute in E; discriminate E).
  split; [exact Hopen | split; [reflexivity | split; [reflexivity |]]].
  exact (native_failure_raises_or_false Sample.header Sample.failing
           (op_file (RString "/nonexistent")) Sample.opened
           Hopen eq_refl eq_refl).
Defined.

(** C2 as stated fails: check returns false when its native call answers a
    negative value. *)
Lemma check_returns_false_on_native_failure :
  wrapped_call_fails Sample.header Sample.failing (op_check []) Sample.opened /\
  result_of (Init_magic Sample.header Sample.failing (op_check [])) Sample.opened
  = Return Qfalse /\
  ~ (exists e,
        result_of (Init_magic Sample.header Sample.failing (op_check []))
          Sample.opened = Raise e).
Proof.
  split; [exists 0; split; reflexivity | split; [reflexivity |]].
  intros [e E]. vm_compute in E. discriminate E.
Qed.


Ltac trace_shape :=
  cbn; rewrite <- ?app_assoc; cbn;
  first [ eexists; split; [reflexivity | split; reflexivity]
        | exists []; split; [symmetry; apply app_nil_r | split; reflexivity] ].

Lemma operation_keeps_discipline H L op w :
  at_mutex (object w) = Some false ->
  exists evs,
    trace (world_after (Init_magic H L op) w) = trace w ++ evs /\
    lock_discipline synchronized_call false evs = true /\
    at_mutex (object (world_after (Init_magic H L op) w)) = Some false.
Proof.
  intros Hm. open_world w; subst.
  destruct op; unfold_unit; cbn.
  all: repeat (case_step; cbn).
  all: trace_shape.
Qed.

Lemma magic_lock_releases {A : Type} (function : magic_arguments_t -> M A)
    (data : magic_arguments_t) (w : world) :
  at_mutex (object w) = Some false ->
  (forall w0, at_mutex (object (world_after (function data) w0))
              = at_mutex (object w0)) ->
  (forall w0, result_of (function data) w0 <> Abort) ->
  at_mutex (object (world_after (magic_lock function data) w)) = Some false /\
  result_of (magic_lock function data) w
  = result_of (function data) (world_after mutex_lock w).
Proof.
  intros Hm Hframe Hrun. open_world w; subst.
  unfold world_after, result_of in *.
  unfold magic_lock, bind, mutex_lock, rb_ensure. cbn.
  set (w1 := log EvLock _).
  specialize (Hframe w1). specialize (Hrun w1).
  destruct (function data w1) as [r w2]. cbn in Hframe, Hrun.
  unfold magic_unlock, bind, mutex_unlock.
  destruct w2 as [[ptr2 fl2 pa2 mu2] en2 tr2]. cbn in Hframe. subst mu2.
  destruct r; cbn; try (split; reflexivity).
  contradiction.
Qed.

(** ** C4: the mutex

    C4, amended. Started with the mutex free, every operation runs its
    calls to the library's load, check, compile, file and descriptor entry
    points between a lock and the matching unlock, and ends with the mutex
    free. [magic_lock] releases the mutex whether the function it guards
    returns or raises, and hands on that function's outcome. *)
Theorem lock_held_around_synchronized_calls H L w :
  at_mutex (object w) = Some false ->
  (forall op,
      lock_discipline synchronized_call false (events_of (Init_magic H L op) w)
      = true /\
      at_mutex (object (world_after (Init_magic H L op) w)) = Some false) /\
  (forall (A : Type) (function : magic_arguments_t -> M A) data,
      (forall w0, at_mutex (object (world_after (function data) w0))
                  = at_mutex (object w0)) ->
      (forall w0, result_of (function data) w0 <> Abort) ->
      at_mutex (object (world_after (magic_lock function data) w)) = Some false /\
      result_of (magic_lock function data) w
      = result_of (function data) (world_after mutex_lock w)).
Proof.
  intros Hm. split.
  - intros op.
    destruct (operation_keeps_discipline H L op w Hm) as (evs & Ht & Hd & Hu).
    split; [| exact Hu].
    rewrite (events_of_extension _ _ _ Ht). exact Hd.
  - intros A function data. apply magic_lock_releases. exact Hm.
Qed.

Lemma lock_held_around_synchronized_calls_witness :
  let data := mk_arguments 4096 PathNull 0 0 in
  at_mutex (object Sample.opened) = Some false /\
  lock_discipline synchronized_call false
    (events_of (Init_magic Sample.header Sample.failing
                  (op_file (RString "/nonexistent"))) Sample.opened)
  = true /\
  at_mutex (object (world_after (magic_lock Sample.raising data) Sample.opened))
  = Some false /\
  result_of (magic_lock Sample.raising data) Sample.opened = Raise type_error.
Proof.
  intros data.
  pose proof (lock_held_around_synchronized_calls Sample.header Sample.failing
                Sample.opened eq_refl) as [Hops Hlock].
  split; [reflexivity | split].
  - exact (proj1 (Hops (op_file (RString "/nonexistent")))).
  - apply (Hlock VALUE Sample.raising data).
    + intros w0. reflexivity.
    + intros w0 E. discriminate E.
Defined.

(** C4 as stated fails: path asks the library for its default path without
    taking the mutex. *)
Lemma path_calls_library_without_lock :
  events_of (Init_magic Sample.header Sample.working op_path) Sample.opened
  = [EvCall F_magic_getpath NULL] /\
  lock_discipline every_call false
    (events_of (Init_magic Sample.header Sample.working op_path) Sample.opened)
  = false.
Proof. split; reflexivity. Qed.


(** ** The assertions of the unit hold *)


(** ** Further properties of the unit *)

(** *** Results of the operations that succeed *)

(** X1. On an open receiver whose mutex is free, when the library answers
    the identification call of file, buffer or descriptor with a string,
    the operation returns that string and leaves the receiver as it was. *)
Theorem identification_returns_answer H L op w r :
  DATA_PTR (object w) <> NULL ->
  at_mutex (object w) = Some false ->
  identification L op w = Some (Some r) ->
  result_of (Init_magic H L op) w = Return (RString r) /\
  object (world_after (Init_magic H L op) w) = object w.
Proof.
  intros Hopen Hmutex Hid. apply open_not_null in Hopen.
  destruct op as [ | | | | value | value | value | value
                 | arguments | arguments | arguments | ];
    cbn in Hid; try discriminate;
    destruct value; try discriminate.
  - open_world w; subst. injection Hid as Hid.
    unfold_unit. drive. split; reflexivity.
  - open_world w; subst. injection Hid as Hid.
    unfold_unit. drive. split; reflexivity.
  - destruct ((INT_MIN <=? n) && (n <=? INT_MAX)) eqn:Hrange;
      [| discriminate].
    open_world w; subst. injection Hid as Hid.
    unfold_unit. drive. split; reflexivity.
Qed.

Lemma identification_returns_answer_witness :
  DATA_PTR (object Sample.opened) <> NULL /\
  at_mutex (object Sample.opened) = Some false /\
  identification Sample.working (op_descriptor (Fixnum 0)) Sample.opened
  = Some (Some "ASCII text") /\
  result_of (Init_magic Sample.header Sample.working (op_descriptor (Fixnum 0)))
    Sample.opened
  = Return (RString "ASCII text") /\
  object (world_after
            (Init_magic Sample.header Sample.working (op_descriptor (Fixnum 0)))
            Sample.opened)
  = object Sample.opened.
Proof.
  assert (Hopen : DATA_PTR (object Sample.opened) <> NULL)
    by (intros E; vm_compute in E; discriminate E).
  split; [exact Hopen | split; [reflexivity | split; [reflexivity |]]].
  exact (identification_returns_answer Sample.header Sample.working
           (op_descriptor (Fixnum 0)) Sample.opened "ASCII text"
           Hopen eq_refl eq_refl).
Defined.



(** X3. On an open receiver whose mutex is free and whose [@flags] is an
    [int], check returns true and compile returns true when the wrapped call
    does not answer a negative value; neither changes the receiver. *)
Theorem check_and_compile_succeed H L arguments w n p :
  DATA_PTR (object w) <> NULL ->
  at_mutex (object w) = Some false ->
  int_flags w = Some n ->
  database_argument H arguments = Some p ->
  (0 <= Lib.magic_check_wrapper L (trace w ++ [EvLock]) (DATA_PTR (object w)) p n ->
   rb_mgc_check H L (RArray arguments) w
   = (Return Qtrue,
      mk_world (object w) (errno w)
        (trace w ++ [EvLock; EvCall F_magic_check (DATA_PTR (object w)); EvUnlock]))) /\
  (0 <= Lib.magic_compile_wrapper L (trace w ++ [EvLock]) (DATA_PTR (object w)) p n ->
   rb_mgc_compile H L (RArray arguments) w
   = (Return Qtrue,
      mk_world (object w) (errno w)
        (trace w ++ [EvLock; EvCall F_magic_compile (DATA_PTR (object w)); EvUnlock]))).
Proof.
  intros Hopen Hmutex Hflags Hdb.
  apply open_not_null in Hopen.
  apply int_flags_inv in Hflags. destruct Hflags as [Hfl Hrange].
  destruct arguments as [| a arguments]; cbn in Hdb.
  - injection Hdb as <-.
    open_world w; subst.
    split; intros Hok; apply not_negative in Hok;
      unfold_unit; drive; reflexivity.
  - destruct (joined H (a :: arguments)) as [s |] eqn:Hjoin; [| discriminate].
    injection Hdb as <-. apply joined_inv in Hjoin.
    open_world w; subst.
    split; intros Hok; apply not_negative in Hok;
      unfold_unit; drive; reflexivity.
Qed.

Lemma check_and_compile_succeed_witness :
  rb_mgc_check Sample.header Sample.working (RArray [RString "/etc/magic"])
    Sample.opened
  = (Return Qtrue,
     mk_world (object Sample.opened) 0
       [EvLock; EvCall F_magic_check 4096; EvUnlock]) /\
  rb_mgc_compile Sample.header Sample.working (RArray [RString "/etc/magic"])
    Sample.opened
  = (Return Qtrue,
     mk_world (object Sample.opened) 0
       [EvLock; EvCall F_magic_compile 4096; EvUnlock]).
Proof.
  assert (Hopen : DATA_PTR (object Sample.opened) <> NULL)
    by (intros E; vm_compute in E; discriminate E).
  pose proof (check_and_compile_succeed Sample.header Sample.working
                [RString "/etc/magic"] Sample.opened 0 (PathOf "/etc/magic")
                Hopen eq_refl eq_refl eq_refl) as [Hcheck Hcompile].
  split.
  - apply Hcheck. simpl. lia.
  - apply Hcompile. simpl. lia.
Defined.

(** X4. version returns the number the library answers unless that number
    is negative and errno is ENOSYS: a negative answer with another errno is
    returned as it is. The receiver is not touched. *)
Theorem version_returns_answer H L w rv e :
  Lib.magic_version_wrapper L (trace w) = (rv, e) ->
  (rv <? 0) && (e =? ENOSYS) = false ->
  rb_mgc_version H L w
  = (Return (INT2NUM rv),
     mk_world (object w) e (trace w ++ [EvCall F_magic_version NULL])).
Proof.
  intros Hv Hcond. open_world w. unfold_unit. drive. reflexivity.
Qed.

Lemma version_returns_answer_witness :
  rb_mgc_version Sample.header (Sample.library (-1) EINVAL None None)
    Sample.closed
  = (Return (Fixnum (-1)),
     mk_world (object Sample.closed) EINVAL
       [EvCall F_magic_close 4096; EvCall F_magic_version NULL]).
Proof.
  exact (version_returns_answer Sample.header
           (Sample.library (-1) EINVAL None None) Sample.closed (-1) EINVAL
           eq_refl eq_refl).
Defined.

(** *** Errors *)

(** X5. When the flag-setting call fails with an errno that is neither
    ENOSYS nor EINVAL, flags= raises the library's own error: the exception
    carries the message and error number the library reports after the
    call, or the unknown-error message and -1 when it reports none. *)
Theorem set_flags_other_errno H L w n rv e :
  DATA_PTR (object w) <> NULL ->
  INT_MIN <= n <= INT_MAX ->
  Lib.magic_setflags_wrapper L (trace w) (DATA_PTR (object w)) n = (rv, e) ->
  rv < 0 -> e <> ENOSYS -> e <> EINVAL ->
  exists x,
    result_of (rb_mgc_set_flags H L (Fixnum n)) w = Raise x /\
    carries_library_error H L
      (trace w ++ [EvCall F_magic_setflags (DATA_PTR (object w))])
      (DATA_PTR (object w)) x.
Proof.
  intros Hopen Hrange Hs Hneg Hsys Hinv.
  apply open_not_null in Hopen. apply in_int_range in Hrange.
  apply negative in Hneg.
  apply Z.eqb_neq in Hsys. apply Z.eqb_neq in Hinv.
  open_world w. unfold carries_library_error. unfold_unit. drive.
  destruct (Lib.magic_error _ _ _); cbn;
    eexists; (split; [reflexivity |]); cbn; repeat split;
    rewrite <- ?app_assoc; reflexivity.
Qed.

Lemma set_flags_other_errno_witness :
  exists x,
    result_of (rb_mgc_set_flags Sample.header Sample.refusing (Fixnum 16))
      Sample.opened = Raise x /\
    carries_library_error Sample.header Sample.refusing
      (trace Sample.opened ++ [EvCall F_magic_setflags (DATA_PTR (object Sample.opened))])
      (DATA_PTR (object Sample.opened)) x.
Proof.
  assert (Hopen : DATA_PTR (object Sample.opened) <> NULL)
    by (intros E; vm_compute in E; discriminate E).
  assert (Hrange : INT_MIN <= 16 <= INT_MAX)
    by (unfold INT_MIN, INT_MAX; lia).
  assert (Hneg : -1 < 0) by lia.
  assert (Hsys : 1 <> ENOSYS) by (unfold ENOSYS; lia).
  assert (Hinv : 1 <> EINVAL) by (unfold EINVAL; lia).
  exact (set_flags_other_errno Sample.header Sample.refusing Sample.opened
           16 (-1) 1 Hopen Hrange eq_refl Hneg Hsys Hinv).
Defined.

(** X6. The class of the argument is checked before the receiver is: with
    an argument of the wrong class, flags=, file, buffer and descriptor
    raise TypeError on an open and on a closed receiver alike, and nothing
    else happens. *)
Theorem wrong_argument_raises_type_error H L op w :
  wrong_argument op = true ->
  Init_magic H L op w = (Raise type_error, w).
Proof.
  intros Hwrong.
  destruct op as [ | | | | value | value | value | value
                 | arguments | arguments | arguments | ];
    cbn in Hwrong; try discriminate;
    unfold_unit;
    destruct (ruby_value_type_eqb (TYPE value) _); try discriminate;
    reflexivity.
Qed.

Lemma wrong_argument_raises_type_error_witness :
  Init_magic Sample.header Sample.working (op_file (Fixnum 3)) Sample.closed
  = (Raise type_error, Sample.closed).
Proof.
  exact (wrong_argument_raises_type_error Sample.header Sample.working
           (op_file (Fixnum 3)) Sample.closed eq_refl).
Defined.

(** X7. On an open receiver, a Fixnum that does not fit an [int] makes
    flags= and descriptor raise RangeError before the library is called;
    nothing else happens. *)
Theorem oversized_argument_raises_range_error H L op w :
  DATA_PTR (object w) <> NULL ->
  oversized_argument op = true ->
  Init_magic H L op w = (Raise range_error, w).
Proof.
  intros Hopen Hbig. apply open_not_null in Hopen.
  destruct op as [ | | | | value | value | value | value
                 | arguments | arguments | arguments | ];
    cbn in Hbig; try discriminate;
    destruct value; try discriminate;
    apply negb_true_iff in Hbig;
    open_world w; unfold_unit; drive; reflexivity.
Qed.

Lemma oversized_argument_raises_range_error_witness :
  Init_magic Sample.header Sample.working (op_set_flags (Fixnum 4294967296))
    Sample.opened
  = (Raise range_error, Sample.opened).
Proof.
  assert (Hopen : DATA_PTR (object Sample.opened) <> NULL)
    by (intros E; vm_compute in E; discriminate E).
  exact (oversized_argument_raises_range_error Sample.header Sample.working
           (op_set_flags (Fixnum 4294967296)) Sample.opened Hopen eq_refl).
Defined.

(** X8. Whenever an operation raises, the receiver is as it was before the
    call: pointer, [@flags], [@path] and the state of the mutex. *)
Theorem raise_leaves_receiver_unchanged H L op w e w' :
  Init_magic H L op w = (Raise e, w') ->
  object w' = object w.
Proof.
  open_world w.
  destruct op; unfold_unit; cbn.
  all: repeat (case_step; cbn; try discriminate).
  all: intros E; inversion E; subst; reflexivity.
Qed.

Lemma raise_leaves_receiver_unchanged_witness :
  exists e w',
    Init_magic Sample.header Sample.failing (op_load []) Sample.opened
    = (Raise e, w') /\
    object w' = object Sample.opened.
Proof.
  eexists. eexists. split; [vm_compute; reflexivity |].
  exact (raise_leaves_receiver_unchanged Sample.header Sample.failing
           (op_load []) Sample.opened _ _ eq_refl).
Defined.

(** *** Magic.new *)

(** X9. When the library hands out a handle and the initial load does not
    answer a negative value, [Magic.new] returns the receiver with that
    handle, [@flags] 0, [@path] nil and a free mutex; the library has seen
    the open call and one load call, made under the mutex; flags then
    returns 0. *)
Theorem new_object_state H L w :
  let c := Lib.magic_open L (trace w) MAGIC_NONE in
  c <> NULL ->
  0 <= Lib.magic_load_wrapper L (trace w ++ [EvCall F_magic_open NULL; EvLock])
         c PathNull MAGIC_NONE ->
  let w1 := mk_world (mk_object c (Fixnum 0) Qnil (Some false)) (errno w)
              (trace w ++ [EvCall F_magic_open NULL; EvLock;
                           EvCall F_magic_load c; EvUnlock]) in
  Magic_new H L w = (Return RData, w1) /\
  rb_mgc_get_flags H w1 = (Return (Fixnum 0), w1).
Proof.
  intros c Hc Hok. subst c.
  apply Z.eqb_neq in Hc. apply not_negative in Hok.
  open_world w. unfold_unit. drive. split; [reflexivity |].
  drive. reflexivity.
Qed.

Lemma new_object_state_witness :
  Magic_new Sample.header Sample.working Sample.blank
  = (Return RData, Sample.fresh) /\
  rb_mgc_get_flags Sample.header Sample.fresh = (Return (Fixnum 0), Sample.fresh).
Proof.
  assert (Hc : Lib.magic_open Sample.working (trace Sample.blank) MAGIC_NONE
               <> NULL)
    by (intros E; vm_compute in E; discriminate E).
  assert (Hok : 0 <= Lib.magic_load_wrapper Sample.working
                       (trace Sample.blank ++ [EvCall F_magic_open NULL; EvLock])
                       (Lib.magic_open Sample.working (trace Sample.blank) MAGIC_NONE)
                       PathNull MAGIC_NONE)
    by (simpl; lia).
  exact (new_object_state Sample.header Sample.working Sample.blank Hc Hok).
Defined.

(** X10. When the initial load answers a negative value, [Magic.new] raises
    the library's error. The mutex has been released, [@flags] has not been
    set, and the handle has not been closed: it stays with the allocated
    object. *)
Theorem new_with_failing_load H L w :
  let c := Lib.magic_open L (trace w) MAGIC_NONE in
  c <> NULL ->
  Lib.magic_load_wrapper L (trace w ++ [EvCall F_magic_open NULL; EvLock])
    c PathNull MAGIC_NONE < 0 ->
  exists e,
    result_of (Magic_new H L) w = Raise e /\
    carries_library_error H L
      (trace w ++ [EvCall F_magic_open NULL; EvLock; EvCall F_magic_load c; EvUnlock])
      c e /\
    object (world_after (Magic_new H L) w) = mk_object c Qnil Qnil (Some false) /\
    existsb close_event (events_of (Magic_new H L) w) = false.
Proof.
  intros c Hc Hfail. subst c.
  apply Z.eqb_neq in Hc. apply negative in Hfail.
  open_world w. unfold carries_library_error, events_of. unfold_unit. drive.
  destruct (Lib.magic_error _ _ _); cbn;
    eexists; (split; [reflexivity |]); cbn;
    rewrite <- ?app_assoc; cbn; rewrite skipn_length_app;
    repeat split.
Qed.

Lemma new_with_failing_load_witness :
  exists e,
    result_of (Magic_new Sample.header Sample.failing) Sample.blank = Raise e /\
    carries_library_error Sample.header Sample.failing
      [EvCall F_magic_open NULL; EvLock; EvCall F_magic_load 4096; EvUnlock]
      4096 e /\
    object (world_after (Magic_new Sample.header Sample.failing) Sample.blank)
    = mk_object 4096 Qnil Qnil (Some false) /\
    existsb close_event
      (events_of (Magic_new Sample.header Sample.failing) Sample.blank) = false.
Proof.
  assert (Hc : Lib.magic_open Sample.failing (trace Sample.blank) MAGIC_NONE
               <> NULL)
    by (intros E; vm_compute in E; discriminate E).
  assert (Hfail : Lib.magic_load_wrapper Sample.failing
                    (trace Sample.blank ++ [EvCall F_magic_open NULL; EvLock])
                    (Lib.magic_open Sample.failing (trace Sample.blank) MAGIC_NONE)
                    PathNull MAGIC_NONE < 0)
    by (simpl; lia).
  exact (new_with_failing_load Sample.header Sample.failing Sample.blank
           Hc Hfail).
Defined.

(** X11. When the library hands out no handle, [Magic.new] raises
    NoMemoryError after the open call alone: no object is wrapped and
    [initialize] does not run. *)
Theorem new_without_handle H L w :
  Lib.magic_open L (trace w) MAGIC_NONE = NULL ->
  Magic_new H L w
  = (Raise (mk_exception rb_eNoMemError "failed to allocate memory" Qnil),
     log (EvCall F_magic_open NULL) w).
Proof.
  intros Hnull. open_world w. unfold_unit. drive. reflexivity.
Qed.

Lemma new_without_handle_witness :
  Magic_new Sample.header Sample.exhausted Sample.blank
  = (Raise (mk_exception rb_eNoMemError "failed to allocate memory" Qnil),
     log (EvCall F_magic_open NULL) Sample.blank).
Proof.
  exact (new_without_handle Sample.header Sample.exhausted Sample.blank eq_refl).
Defined.

(** X12. Whatever the library answers, [Magic.new] makes its load call
    between a lock and the matching unlock, and when a handle was handed out
    it ends with the mutex free. *)
Theorem new_keeps_lock_discipline H L w :
  lock_discipline synchronized_call false (events_of (Magic_new H L) w) = true /\
  (Lib.magic_open L (trace w) MAGIC_NONE <> NULL ->
   at_mutex (object (world_after (Magic_new H L) w)) = Some false).
Proof.
  open_world w. unfold events_of. unfold_unit. cbn.
  repeat (case_step; cbn).
  all: rewrite <- ?app_assoc; cbn; rewrite skipn_length_app.
  all: split; [reflexivity |]; intros Hc; try reflexivity.
  all: apply Z.eqb_eq in Heqb; contradiction.
Qed.

(** *** What the operations leave alone *)

(** X13. Only close changes the pointer of the receiver, only flags=
    changes [@flags], only path and load change [@path], and every operation
    leaves the mutex in the state it found it in. *)
Theorem operations_frame H L op w :
  let o := object w in
  let o' := object (world_after (Init_magic H L op) w) in
  (writes_pointer op = false -> DATA_PTR o' = DATA_PTR o) /\
  (writes_flags op = false -> at_flags o' = at_flags o) /\
  (writes_path op = false -> at_path o' = at_path o) /\
  at_mutex o' = at_mutex o.
Proof.
  open_world w.
  destruct op; unfold_unit; cbn.
  all: repeat (case_step; cbn).
  all: repeat split; try reflexivity; try discriminate.
Qed.

(** X14. Every call an operation makes into the library passes the handle
    of the receiver, or no handle where the entry point takes none. *)
Theorem calls_pass_own_handle H L op w :
  forallb (call_on (DATA_PTR (object w))) (events_of (Init_magic H L op) w)
  = true.
Proof.
  open_world w. unfold events_of.
  destruct op; unfold_unit; cbn.
  all: repeat (case_step; cbn).
  all: rewrite <- ?app_assoc; cbn;
    first [ rewrite skipn_length_app
          | rewrite <- (app_nil_r tr) at 2; rewrite skipn_length_app ].
  all: cbn; rewrite ?Z.eqb_refl; reflexivity.
Qed.

(** X15. close, closed?, path, flags, flags=, buffer and version never
    touch the mutex: they neither lock nor unlock it, and their outcome is
    the same whatever state the mutex is in. *)
Theorem unsynchronized_operations_ignore_mutex H L op w m :
  takes_lock op = false ->
  existsb lock_event (events_of (Init_magic H L op) w) = false /\
  result_of (Init_magic H L op) (set_mutex m w) = result_of (Init_magic H L op) w.
Proof.
  intros Hop. open_world w. unfold events_of, set_mutex.
  destruct op; cbn in Hop; try discriminate; unfold_unit; cbn.
  all: repeat (case_step; cbn).
  all: rewrite <- ?app_assoc; cbn;
    first [ rewrite skipn_length_app
          | rewrite <- (app_nil_r tr) at 2; rewrite skipn_length_app ].
  all: split; reflexivity.
Qed.

Lemma unsynchronized_operations_ignore_mutex_witness :
  existsb lock_event
    (events_of (Init_magic Sample.header Sample.working (op_buffer (RString "GIF89a")))
       Sample.opened) = false /\
  result_of (Init_magic Sample.header Sample.working (op_buffer (RString "GIF89a")))
    (set_mutex (Some true) Sample.opened)
  = result_of (Init_magic Sample.header Sample.working (op_buffer (RString "GIF89a")))
      Sample.opened.
Proof.
  exact (unsynchronized_operations_ignore_mutex Sample.header Sample.working
           (op_buffer (RString "GIF89a")) Sample.opened (Some true) eq_refl).
Defined.

